(** * card_deck/deck.py: cards, a deck with a discard pile, and a hand

    A shallow embedding of [deck.py].  Python values that the code stores in
    a card are modelled by [pyval]; exceptions by [exn]; a call that may raise
    by [result]; a method that mutates its objects by the state-and-exception
    monad [M], whose final state is kept also when the call raises, so that
    "nothing was modified on failure" is a statement about that state. *)

From Stdlib Require Import ZArith String OrderedTypeEx.
From stdpp Require Import gmap strings list.

#[local] Set Warnings "-clear-no-such-hyp".

Local Open Scope string_scope.
Local Open Scope list_scope.
Local Open Scope Z_scope.

(** ** Python values, exceptions, results *)

(** The values that reach a card's attributes: [None], an [int], a [str].
    Floats are not modelled. *)
Inductive pyval : Type :=
| VNone
| VInt (z : Z)
| VStr (s : string).

Global Instance pyval_eq_dec : EqDecision pyval.
Proof. solve_decision. Defined.

(** The exception classes of the module, and the built-in ones it meets. *)
Inductive exn : Type :=
| CardValueError
| CardSuitError
| DeckOutOfCardsError
| IndexError
| KeyError
| TypeError
| OverflowError.

Global Instance exn_eq_dec : EqDecision exn.
Proof. solve_decision. Defined.

Inductive result (A : Type) : Type :=
| Ok (a : A)
| Raise (e : exn).
Arguments Ok {A} a.
Arguments Raise {A} e.

Global Instance result_ret : MRet result := fun _ a => Ok a.
Global Instance result_bind : MBind result := fun _ _ k m =>
  match m with
  | Ok a => k a
  | Raise e => Raise e
  end.

(** [a == b]: never raises; values of different types are unequal. *)
Definition py_eq (a b : pyval) : bool := bool_decide (a = b).

(** [a < b]: defined between two ints and between two strs (code-point
    lexicographic order); any other pair raises [TypeError]. *)
Definition py_lt (a b : pyval) : result bool :=
  match a, b with
  | VInt x, VInt y => Ok (x <? y)%Z
  | VStr s, VStr t => Ok (String.ltb s t)
  | _, _ => Raise TypeError
  end.

(** [a > b] *)
Definition py_gt (a b : pyval) : result bool :=
  match a, b with
  | VInt x, VInt y => Ok (y <? x)%Z
  | VStr s, VStr t => Ok (String.ltb t s)
  | _, _ => Raise TypeError
  end.

(** [x in l] for a list [l] of values *)
Definition py_in (x : pyval) (l : list pyval) : bool :=
  existsb (py_eq x) l.

(** ** Module-level tables *)

Definition suits : list pyval :=
  [VStr "heart"; VStr "spade"; VStr "club"; VStr "diamond"].

Definition suit_value_dict : gmap string Z :=
  <["heart" := 3]> (<["diamond" := 2]> (<["spade" := 1]> (<["club" := 0]> ∅))).

(** [d[k]]: [KeyError] when the key is absent; only strs are keys here. *)
Definition dict_getitem (d : gmap string Z) (k : pyval) : result Z :=
  match k with
  | VStr s => match d !! s with
              | Some v => Ok v
              | None => Raise KeyError
              end
  | _ => Raise KeyError
  end.

(** ** class Card *)

Record Card : Type := mkCard { value : pyval; suit : pyval }.

Global Instance Card_eq_dec : EqDecision Card.
Proof. solve_decision. Defined.

(** [Card.__init__(self, value, suit)] *)
Definition Card_init (value suit : pyval) : result Card :=
  if negb (py_in value suits) then Raise CardValueError
  else if negb (py_in suit suits) then Raise CardSuitError
  else Ok (mkCard value suit).

(** The call [Card(a1, ..., an)]: [__init__] has two required positional
    parameters, any other number of arguments is a [TypeError]. *)
Definition Card_call (args : list pyval) : result Card :=
  match args with
  | [v; s] => Card_init v s
  | _ => Raise TypeError
  end.

(** [Card.suitCompare(self, card)]; a call that leaves the if/elif chain
    without a [return] yields [None]. *)
Definition suitCompare (self card : Card) : result pyval :=
  c1 ← (a ← dict_getitem suit_value_dict (suit self);
        b ← dict_getitem suit_value_dict (suit card);
        mret (a =? b)%Z);
  if c1 : bool then mret (VInt 0)
  else
    c2 ← (a ← dict_getitem suit_value_dict (suit self);
          b ← dict_getitem suit_value_dict (suit card);
          mret (b <? a)%Z);
    if c2 : bool then mret (VInt 1)
    else
      c3 ← (a ← dict_getitem suit_value_dict (suit self);
            b ← dict_getitem suit_value_dict (suit card);
            mret (a <? b)%Z);
      if c3 : bool then mret (VInt (-1))
      else mret VNone.

(** [Card.compare(self, card)] *)
Definition compare (self card : Card) : result pyval :=
  if py_eq (value self) (value card) then suitCompare self card
  else
    c2 ← py_gt (value self) (value card);
    if c2 : bool then mret (VInt 1)
    else
      c3 ← py_lt (value self) (value card);
      if c3 : bool then mret (VInt (-1))
      else mret VNone.

(** ** Methods that mutate: state and exceptions

    [M S A] is a computation on a state [S] that returns an [A] or raises;
    the state it leaves behind is part of the outcome in both cases. *)

Definition M (S A : Type) : Type := S → result A * S.

Global Instance M_ret {S} : MRet (M S) := fun _ a s => (Ok a, s).
Global Instance M_bind {S} : MBind (M S) := fun _ _ k m s =>
  match m s with
  | (Ok a, s') => k a s'
  | (Raise e, s') => (Raise e, s')
  end.

Definition raise {S A} (e : exn) : M S A := fun s => (Raise e, s).
Definition get {S} : M S S := fun s => (Ok s, s).
Definition put {S} (s : S) : M S unit := fun _ => (Ok tt, s).

(** A pure call inside a method. *)
Definition lift {S A} (r : result A) : M S A := fun s => (r, s).

(** [try: m  except e: h]: the handler runs on the state [m] left. *)
Definition try_except {S A} (m : M S A) (e : exn) (h : M S A) : M S A := fun s =>
  match m s with
  | (Raise e', s') => if decide (e' = e) then h s' else (Raise e', s')
  | r => r
  end.

(** A method of a sub-object run inside the enclosing state. *)
Record lens (S T : Type) : Type := mkLens { view : S → T; update : T → S → S }.
Arguments mkLens {S T} view update.
Arguments view {S T} l s.
Arguments update {S T} l t s.

Definition zoom {S T A} (L : lens S T) (m : M T A) : M S A := fun s =>
  let (r, t) := m (view L s) in (r, update L t s).

Definition fst_l {A B} : lens (A * B) A := mkLens fst (fun a p => (a, snd p)).
Definition snd_l {A B} : lens (A * B) B := mkLens snd (fun b p => (fst p, b)).

(** [for x in xs: body] *)
Fixpoint for_in {S A} (xs : list A) (body : A → M S unit) : M S unit :=
  match xs with
  | [] => mret tt
  | x :: xs' => body x;; for_in xs' body
  end.

(** [range(n)] *)
Definition range (n : Z) : list Z := Z.of_nat <$> seq 0 (Z.to_nat n).

(** ** Python lists *)

(** The range of a C [ssize_t] on a 64-bit build, -2**63 .. 2**63 - 1:
    [list.pop] converts its index to one before it looks at the list. *)
Definition ssize_t_min : Z := -9223372036854775808.
Definition ssize_t_max : Z := 9223372036854775807.

(** [i] can be converted to a [ssize_t]. *)
Definition fits_ssize_t (i : Z) : Prop := ssize_t_min ≤ i ≤ ssize_t_max.

Section PyList.
Context {A : Type}.

(** [l.append(x)] *)
Definition list_append (x : A) : M (list A) unit := fun l => (Ok tt, l ++ [x]).

(** [l += ys] *)
Definition list_iadd (ys : list A) : M (list A) unit := fun l => (Ok tt, l ++ ys).

(** [l.pop(i)]: an index that does not fit a [ssize_t] raises
    [OverflowError]; a negative index counts from the end; an index that is
    still out of range after that raises [IndexError].  Both leave [l]. *)
Definition list_pop (i : Z) : M (list A) A := fun l =>
  if (i <? ssize_t_min)%Z || (ssize_t_max <? i)%Z then (Raise OverflowError, l)
  else
    let n := Z.of_nat (length l) in
    let k := if (i <? 0)%Z then i + n else i in
    if (k <? 0)%Z || (n <=? k)%Z then (Raise IndexError, l)
    else match l !! Z.to_nat k with
         | Some x => (Ok x, delete (Z.to_nat k) l)
         | None => (Raise IndexError, l)
         end.

(** [x[i], x[j] = x[j], x[i]] for non-negative [i], [j]: the right-hand
    side is read first, then [x[i]] and [x[j]] are stored in that order. *)
Definition list_swap (i j : nat) : M (list A) unit := fun x =>
  match x !! j with
  | None => (Raise IndexError, x)
  | Some xj =>
      match x !! i with
      | None => (Raise IndexError, x)
      | Some xi => (Ok tt, <[j:=xi]> (<[i:=xj]> x))
      end
  end.
End PyList.

(** ** The random source

    [random.shuffle(x)] is the library's loop
    [for i in reversed(range(1, len(x))): j = randbelow(i + 1); swap x[i], x[j]].
    The generator is a state [rng] with its [randbelow]. *)

Section Random.
Context {rng : Type} (randbelow : nat → rng → nat * rng).

Definition rand (n : nat) : M rng nat := fun g =>
  let (j, g') := randbelow n g in (Ok j, g').

Fixpoint shuffle_loop {A} (i : nat) : M (list A * rng) unit :=
  match i with
  | O => mret tt
  | S i' =>
      j ← zoom snd_l (rand (S i));
      zoom fst_l (list_swap i j);;
      shuffle_loop i'
  end.

Definition random_shuffle {A} : M (list A * rng) unit := fun s =>
  shuffle_loop (length (fst s) - 1) s.
End Random.

(** ** class Deck *)

Record Deck : Type := mkDeck { deck : list Card; discard : list Card }.

Definition deck_l : lens Deck (list Card) :=
  mkLens deck (fun l d => mkDeck l (discard d)).
Definition discard_l : lens Deck (list Card) :=
  mkLens discard (fun l d => mkDeck (deck d) l).

(** [Deck.__init__(self, number_of_decks, using_jokers)] *)
Definition Deck_init (number_of_decks : Z) (using_jokers : bool) : M Deck unit :=
  zoom deck_l (put []);;
  zoom discard_l (put []);;
  let suits := [VStr "heart"; VStr "spade"; VStr "club"; VStr "diamond"] in
  let card_values := VInt <$> [1; 2; 3; 4; 5; 6; 7; 8; 9; 10; 11; 12; 13]%Z in
  for_in (range number_of_decks) (fun deck_count =>
    for_in suits (fun suit =>
      for_in card_values (fun card_value =>
        c ← lift (Card_call [card_value; suit]);
        zoom deck_l (list_append c)));;
    if using_jokers then
      (* self.deck.append(Card(14), Card(14)): the arguments are evaluated
         first; [append] itself takes exactly one *)
      lift (Card_call [VInt 14]);;
      lift (Card_call [VInt 14]);;
      raise TypeError
    else mret tt).

(** The call [Deck(number_of_decks, using_jokers)]: the object exists for
    the caller only if [__init__] returns. *)
Definition Deck_new (number_of_decks : Z) (using_jokers : bool) : result Deck :=
  match Deck_init number_of_decks using_jokers (mkDeck [] []) with
  | (Ok _, d) => Ok d
  | (Raise e, _) => Raise e
  end.

(** [Deck.draw(self)] *)
Definition Deck_draw : M Deck Card :=
  card_drawn ← try_except (zoom deck_l (list_pop 0))
                          IndexError (raise DeckOutOfCardsError);
  mret card_drawn.

(** [Deck.addToDiscard(self, card)] *)
Definition Deck_addToDiscard (card : Card) : M Deck unit :=
  zoom discard_l (list_append card).

Section DeckShuffle.
Context {rng : Type} (randbelow : nat → rng → nat * rng).

Definition deck_rng_l : lens (Deck * rng) (list Card * rng) :=
  mkLens (fun s => (deck (fst s), snd s))
         (fun t s => (mkDeck (fst t) (discard (fst s)), snd t)).

(** [Deck.shuffle(self)]; the state is the deck and the generator. *)
Definition Deck_shuffle : M (Deck * rng) unit :=
  zoom fst_l (d ← get; zoom deck_l (list_iadd (discard d)));;
  zoom fst_l (zoom discard_l (put []));;
  zoom deck_rng_l (random_shuffle randbelow).
End DeckShuffle.

(** ** class Hand *)

Record Hand : Type := mkHand { hand : list Card }.

Definition hand_l : lens Hand (list Card) := mkLens hand (fun l _ => mkHand l).

(** [Hand()] *)
Definition Hand_new : Hand := mkHand [].

(** [Hand.draw(self, deck)]; the state is [(self, deck)].  The bound method
    [self.hand.append] is looked up before [deck.draw()] is called and is
    applied only if that call returns. *)
Definition Hand_draw : M (Hand * Deck) unit :=
  try_except
    (c ← zoom snd_l Deck_draw;
     zoom fst_l (zoom hand_l (list_append c)))
    DeckOutOfCardsError (raise DeckOutOfCardsError).

(** [Hand.discard(self, deck, card_index)] *)
Definition Hand_discard (card_index : Z) : M (Hand * Deck) unit :=
  try_except
    (c ← zoom fst_l (zoom hand_l (list_pop card_index));
     zoom snd_l (Deck_addToDiscard c))
    IndexError (raise IndexError).

(** ** A deck, its hands and the generator: the callers' view

    A caller holds one deck and some hands and calls their methods one after
    the other; an exception ends the call that raised it, not the game. *)

Inductive op : Type :=
| OpNewHand                       (* hands.append(Hand()) *)
| OpDraw (h : nat)                (* hands[h].draw(deck) *)
| OpDiscard (h : nat) (i : Z)     (* hands[h].discard(deck, i) *)
| OpShuffle.                      (* deck.shuffle() *)

Record World (rng : Type) : Type :=
  mkWorld { w_deck : Deck; w_hands : list Hand; w_rng : rng }.
Arguments mkWorld {rng} w_deck w_hands w_rng.
Arguments w_deck {rng} w.
Arguments w_hands {rng} w.
Arguments w_rng {rng} w.

Section Play.
Context {rng : Type} (randbelow : nat → rng → nat * rng).

(** One call; a hand that does not exist cannot be called. *)
Definition step (w : World rng) (o : op) : World rng :=
  match o with
  | OpNewHand => mkWorld (w_deck w) (w_hands w ++ [Hand_new]) (w_rng w)
  | OpDraw h =>
      match w_hands w !! h with
      | Some self =>
          let (self', deck') := snd (Hand_draw (self, w_deck w)) in
          mkWorld deck' (<[h:=self']> (w_hands w)) (w_rng w)
      | None => w
      end
  | OpDiscard h i =>
      match w_hands w !! h with
      | Some self =>
          let (self', deck') := snd (Hand_discard i (self, w_deck w)) in
          mkWorld deck' (<[h:=self']> (w_hands w)) (w_rng w)
      | None => w
      end
  | OpShuffle =>
      let (deck', g') := snd (Deck_shuffle randbelow (w_deck w, w_rng w)) in
      mkWorld deck' (w_hands w) g'
  end.

Definition run (ops : list op) (w : World rng) : World rng := foldl step w ops.

(** Every card the deck and the hands hold, place after place. *)
Definition all_cards (w : World rng) : list Card :=
  deck (w_deck w) ++ discard (w_deck w) ++ concat (hand <$> w_hands w).
End Play.

(** A generator to run the code on: a linear congruential one. *)
Definition lcg_randbelow (n : nat) (g : Z) : nat * Z :=
  (Z.to_nat (g mod Z.of_nat n), (g * 1103515245 + 12345) mod 2147483648).

(** A pile to run the code on: thirteen integer ranks in each of the four
    suits, suit after suit. *)
Definition sample_pile : list Card :=
  s ← suits; r ← seq 1 13; [mkCard (VInt (Z.of_nat r)) s].

(** The contract of [randbelow(n)]: an answer below [n]. *)
Definition randbelow_ok {rng : Type} (randbelow : nat → rng → nat * rng) : Prop :=
  ∀ (n : nat) (g : rng), (0 < n)%nat → ((randbelow n g).1 < n)%nat.

(** The position [l.pop(i)] removes: [i] itself, or [i + len(l)] if [i < 0]. *)
Definition pop_pos {A} (l : list A) (i : Z) : nat :=
  Z.to_nat (if (i <? 0)%Z then i + Z.of_nat (length l) else i).

(** ** Which cards [compare] is defined on *)

Inductive pykind : Type := KNone | KInt | KStr.

Definition kind (v : pyval) : pykind :=
  match v with
  | VNone => KNone
  | VInt _ => KInt
  | VStr _ => KStr
  end.

(** [k in suit_value_dict] *)
Definition is_key (k : pyval) : bool :=
  match k with
  | VStr s => bool_decide (is_Some (suit_value_dict !! s))
  | _ => false
  end.




(** The order [compare] computes, read off its branches: the values first,
    the table's numbers on a tie. *)
Definition value_cmp (a b : pyval) : comparison :=
  match a, b with
  | VInt x, VInt y => (x ?= y)%Z
  | VStr s, VStr t => String.compare s t
  | _, _ => Eq
  end.

Definition suit_rank (k : pyval) : Z :=
  match dict_getitem suit_value_dict k with
  | Ok v => v
  | Raise _ => 0
  end.

Definition card_cmp (a b : Card) : comparison :=
  match value_cmp (value a) (value b) with
  | Eq => (suit_rank (suit a) ?= suit_rank (suit b))%Z
  | c => c
  end.

Definition sign (c : comparison) : Z :=
  match c with
  | Lt => -1
  | Eq => 0
  | Gt => 1
  end.

(** * Properties *)

(** ** The suit table *)

Lemma is_key_inv (k : pyval) :
  is_key k →
  k = VStr "heart" ∨ k = VStr "diamond" ∨ k = VStr "spade" ∨ k = VStr "club".
Proof.
  destruct k as [|z|s]; simpl; try done.
  intros [v Hv]%bool_decide_unpack. unfold suit_value_dict in Hv.
  repeat (apply lookup_insert_Some in Hv as [[<- _]|[_ Hv]]; [by auto|]).
  by rewrite lookup_empty in Hv.
Qed.

Lemma is_key_in_suits (k : pyval) : is_key k ↔ py_in k suits.
Proof.
  split.
  - intros Hk. by destruct (is_key_inv k Hk) as [-> | [-> | [-> | ->]]].
  - unfold py_in, suits, py_eq. simpl. intros H.
    repeat (case_bool_decide; [by subst|]). done.
Qed.

Ltac each_suit H :=
  let E := fresh in
  destruct (is_key_inv _ H) as [E|[E|[E|E]]]; rewrite E in *; clear E.

(** ** [compare] and the order it computes *)

Lemma value_cmp_refl (v : pyval) : value_cmp v v = Eq.
Proof.
  destruct v as [|z|s]; simpl; [done|apply Z.compare_refl|].
  induction s as [|a s IH]; simpl; [done|].
  unfold Ascii.compare. by rewrite N.compare_refl.
Qed.

Lemma value_cmp_antisym (a b : pyval) :
  value_cmp a b = CompOpp (value_cmp b a).
Proof.
  destruct a, b; simpl; try done.
  - apply Z.compare_antisym.
  - apply String.compare_antisym.
Qed.

Lemma value_cmp_eq (a b : pyval) :
  kind a = kind b → value_cmp a b = Eq → a = b.
Proof.
  destruct a, b; simpl; try done.
  - by intros _ ->%Z.compare_eq_iff.
  - by intros _ ->%String.compare_eq_iff.
Qed.

Lemma value_cmp_lt_trans (a b c : pyval) :
  value_cmp a b = Lt → value_cmp b c = Lt → value_cmp a c = Lt.
Proof.
  destruct a, b, c; simpl; try done.
  - rewrite !Z.compare_lt_iff. lia.
  - intros H1%String_as_OT.cmp_lt H2%String_as_OT.cmp_lt.
    apply String_as_OT.cmp_lt. eapply String_as_OT.lt_trans; eauto.
Qed.

Lemma card_cmp_antisym (a b : Card) : card_cmp a b = CompOpp (card_cmp b a).
Proof.
  unfold card_cmp. rewrite (value_cmp_antisym (value a) (value b)).
  destruct (value_cmp (value b) (value a)); simpl; try done.
  apply Z.compare_antisym.
Qed.

Lemma suit_rank_inj (s t : pyval) :
  is_key s → is_key t → suit_rank s = suit_rank t → s = t.
Proof. intros Hs Ht. each_suit Hs; each_suit Ht; by vm_compute. Qed.

Lemma card_cmp_eq (a b : Card) :
  kind (value a) = kind (value b) → is_key (suit a) → is_key (suit b) →
  card_cmp a b = Eq ↔ a = b.
Proof.
  intros Hk Ha Hb. split.
  - unfold card_cmp. destruct (value_cmp _ _) eqn:Hv; try done.
    intros Hs%Z.compare_eq_iff. apply value_cmp_eq in Hv; [|done].
    apply suit_rank_inj in Hs; [|done..].
    destruct a, b; simpl in *; by subst.
  - intros ->. unfold card_cmp. rewrite value_cmp_refl. apply Z.compare_refl.
Qed.

Lemma card_cmp_lt_trans (a b c : Card) :
  kind (value a) = kind (value b) → kind (value b) = kind (value c) →
  card_cmp a b = Lt → card_cmp b c = Lt → card_cmp a c = Lt.
Proof.
  intros Hab Hbc. unfold card_cmp.
  destruct (value_cmp (value a) (value b)) eqn:H1; try done;
    destruct (value_cmp (value b) (value c)) eqn:H2; try done.
  - apply value_cmp_eq in H1, H2; [|done..]. rewrite H1, H2, value_cmp_refl.
    rewrite !Z.compare_lt_iff. lia.
  - apply value_cmp_eq in H1; [|done]. by rewrite H1, H2.
  - apply value_cmp_eq in H2; [|done]. by rewrite <-H2, H1.
  - by rewrite (value_cmp_lt_trans _ _ _ H1 H2).
Qed.

(** [suitCompare] returns the sign of the comparison of the two table
    entries whenever both suits are keys. *)
Lemma suitCompare_sign (a b : Card) :
  is_key (suit a) → is_key (suit b) →
  suitCompare a b = Ok (VInt (sign (suit_rank (suit a) ?= suit_rank (suit b))%Z)).
Proof.
  destruct a as [va sa], b as [vb sb]; simpl. intros Ha Hb.
  each_suit Ha; each_suit Hb; by vm_compute.
Qed.

Lemma ltb_compare (s t : string) :
  String.ltb s t = match String.compare s t with Lt => true | _ => false end.
Proof. done. Qed.

(** [compare] returns the sign of [card_cmp] on two cards whose values are
    of one type and whose suits are keys. *)
Lemma compare_sign (a b : Card) :
  kind (value a) = kind (value b) → is_key (suit a) → is_key (suit b) →
  compare a b = Ok (VInt (sign (card_cmp a b))).
Proof.
  intros Hk Ha Hb. unfold compare, card_cmp, py_eq.
  case_bool_decide as Hv.
  - rewrite Hv, value_cmp_refl. by apply suitCompare_sign.
  - destruct (value a) as [|x|s], (value b) as [|y|t]; simpl in *; try done.
    + destruct (Z.compare_spec x y) as [-> | ? | ?]; [done|..].
      * replace (y <? x)%Z with false by lia. by replace (x <? y)%Z with true by lia.
      * by replace (y <? x)%Z with true by lia.
    + rewrite !ltb_compare, (String.compare_antisym s t).
      destruct (String.compare t s) eqn:Hc; simpl; try done.
      apply String.compare_eq_iff in Hc. by subst.
Qed.

(** ** [Card.__init__] *)

(** What the constructor accepts: both arguments have to be suit names. *)
Lemma Card_init_Ok (v s : pyval) (c : Card) :
  Card_init v s = Ok c ↔ is_key v ∧ is_key s ∧ c = mkCard v s.
Proof.
  unfold Card_init. rewrite !is_key_in_suits.
  destruct (py_in v suits), (py_in s suits); simpl; naive_solver.
Qed.

Lemma Card_init_kind (v s : pyval) (c : Card) :
  Card_init v s = Ok c → kind (value c) = KStr ∧ is_key (suit c).
Proof.
  intros (Hv & Hs & ->)%Card_init_Ok. simpl. split; [|done].
  by destruct v.
Qed.

(** C1: [Card(r, s)] must succeed for a valid rank [r] (an integer 1-13, or
    14 for a joker) and a valid suit [s].  The code tests the rank against
    the list of suit names, so it raises [CardValueError] for every integer
    rank, whatever the suit: the valid rank 5 with the valid suit heart is
    rejected. *)
Theorem Card_init_rejects_integer_ranks (r : Z) (s : pyval) :
  Card_call [VInt r; s] = Raise CardValueError.
Proof. done. Qed.

(** ** [Card.compare] *)

Lemma sign_cases (c : comparison) : sign c = -1 ∨ sign c = 0 ∨ sign c = 1.
Proof. destruct c; simpl; auto. Qed.

Lemma sign_CompOpp (c : comparison) : sign (CompOpp c) = - sign c.
Proof. by destruct c. Qed.

Lemma sign_inj (c d : comparison) : sign c = sign d → c = d.
Proof. by destruct c, d. Qed.

Lemma compare_Ok_iff (a b : Card) (c : comparison) :
  kind (value a) = kind (value b) → is_key (suit a) → is_key (suit b) →
  compare a b = Ok (VInt (sign c)) ↔ card_cmp a b = c.
Proof.
  intros Hk Ha Hb. rewrite compare_sign by done. split.
  - intros [= H]. by apply sign_inj.
  - by intros ->.
Qed.

(** The order properties for any three cards whose values are of one type:
    integer ranks, or the strs the constructor lets through. *)
Lemma compare_order (a b c : Card) :
  kind (value a) = kind (value b) → kind (value b) = kind (value c) →
  is_key (suit a) → is_key (suit b) → is_key (suit c) →
  (∃ r, (r = -1 ∨ r = 0 ∨ r = 1) ∧
        compare a b = Ok (VInt r) ∧ compare b a = Ok (VInt (- r))) ∧
  (compare a b = Ok (VInt 0) ↔ value a = value b ∧ suit a = suit b) ∧
  (compare a b = Ok (VInt (-1)) → compare b c = Ok (VInt (-1)) →
   compare a c = Ok (VInt (-1))) ∧
  (compare a b = Ok (VInt 1) → compare b c = Ok (VInt 1) →
   compare a c = Ok (VInt 1)).
Proof.
  intros Hab Hbc Ha Hb Hc.
  assert (Hac : kind (value a) = kind (value c)) by congruence.
  split; [|split; [|split]].
  - exists (sign (card_cmp a b)). split; [apply sign_cases|].
    rewrite !compare_sign by done. split; [done|].
    by rewrite (card_cmp_antisym b a), sign_CompOpp.
  - rewrite (compare_Ok_iff a b Eq), card_cmp_eq by done.
    destruct a, b; simpl. naive_solver.
  - rewrite (compare_Ok_iff a b Lt), (compare_Ok_iff b c Lt),
      (compare_Ok_iff a c Lt) by done.
    by apply card_cmp_lt_trans.
  - rewrite (compare_Ok_iff a b Gt), (compare_Ok_iff b c Gt),
      (compare_Ok_iff a c Gt) by done.
    rewrite (card_cmp_antisym a b), (card_cmp_antisym b c), (card_cmp_antisym a c).
    intros H1 H2.
    assert (Hba : card_cmp b a = Lt) by (by destruct (card_cmp b a)).
    assert (Hcb : card_cmp c b = Lt) by (by destruct (card_cmp c b)).
    by rewrite (card_cmp_lt_trans c b a).
Qed.

Lemma dict_getitem_key (k : pyval) :
  is_key k → ∃ v, dict_getitem suit_value_dict k = Ok v.
Proof. intros Hk. each_suit Hk; by eexists. Qed.

Lemma dict_getitem_not_key (k : pyval) :
  ¬ is_key k → dict_getitem suit_value_dict k = Raise KeyError.
Proof.
  destruct k as [|z|s]; simpl; try done.
  destruct (suit_value_dict !! s) as [v|] eqn:Hs; [|done].
  intros []. apply bool_decide_pack. by exists v.
Qed.

Lemma suitCompare_not_key (a b : Card) :
  ¬ (is_key (suit a) ∧ is_key (suit b)) → suitCompare a b = Raise KeyError.
Proof.
  intros Hk. unfold suitCompare.
  destruct (decide (is_key (suit a))) as [Ha|Ha].
  - destruct (dict_getitem_key _ Ha) as [x ->].
    by rewrite (dict_getitem_not_key (suit b)) by tauto.
  - by rewrite (dict_getitem_not_key (suit a)).
Qed.



(** *** The cards of the data model *)













(** The same order on the cards the constructor returns. *)
Lemma compare_order_constructed (v1 s1 v2 s2 v3 s3 : pyval) (a b c : Card) :
  Card_init v1 s1 = Ok a → Card_init v2 s2 = Ok b → Card_init v3 s3 = Ok c →
  (∃ r, (r = -1 ∨ r = 0 ∨ r = 1) ∧
        compare a b = Ok (VInt r) ∧ compare b a = Ok (VInt (- r))) ∧
  (compare a b = Ok (VInt 0) ↔ a = b) ∧
  (compare a b = Ok (VInt (-1)) → compare b c = Ok (VInt (-1)) →
   compare a c = Ok (VInt (-1))).
Proof.
  intros [Ka Sa]%Card_init_kind [Kb Sb]%Card_init_kind [Kc Sc]%Card_init_kind.
  destruct (compare_order a b c) as (H1 & H2 & H3 & _); [congruence..|].
  split; [done|]. split; [|done].
  rewrite H2. destruct a, b; simpl. naive_solver.
Qed.

(** C5: on a rank tie [compare] decides by the table heart=3, diamond=2,
    spade=1, club=0: it returns the sign of the comparison of the two
    entries; rank 5 heart against rank 5 diamond gives 1 and rank 5 club
    against rank 5 spade gives -1. *)
Theorem compare_tie_by_suit_table :
  (dict_getitem suit_value_dict (VStr "heart") = Ok 3 ∧
   dict_getitem suit_value_dict (VStr "diamond") = Ok 2 ∧
   dict_getitem suit_value_dict (VStr "spade") = Ok 1 ∧
   dict_getitem suit_value_dict (VStr "club") = Ok 0) ∧
  (∀ a b : Card,
     value a = value b → is_key (suit a) → is_key (suit b) →
     ∃ x y, dict_getitem suit_value_dict (suit a) = Ok x ∧
            dict_getitem suit_value_dict (suit b) = Ok y ∧
            compare a b = Ok (VInt (sign (x ?= y)%Z))) ∧
  compare (mkCard (VInt 5) (VStr "heart")) (mkCard (VInt 5) (VStr "diamond"))
    = Ok (VInt 1) ∧
  compare (mkCard (VInt 5) (VStr "club")) (mkCard (VInt 5) (VStr "spade"))
    = Ok (VInt (-1)).
Proof.
  split; [by vm_compute|]. split; [|by vm_compute].
  intros [va sa] [vb sb]; simpl. intros -> Ha Hb.
  unfold compare, py_eq; simpl. rewrite bool_decide_eq_true_2 by done.
  each_suit Ha; each_suit Hb; eexists _, _; by vm_compute.
Qed.

Lemma compare_tie_by_suit_table_witness :
  compare (mkCard (VInt 9) (VStr "spade")) (mkCard (VInt 9) (VStr "heart"))
    = Ok (VInt (-1)).
Proof.
  destruct (proj1 (proj2 compare_tie_by_suit_table)
              (mkCard (VInt 9) (VStr "spade")) (mkCard (VInt 9) (VStr "heart"))
              eq_refl I I) as (x & y & Hx & Hy & ->).
  vm_compute in Hx, Hy. by simplify_eq.
Defined.

(** C10, as claimed, fails when the two values are of different types: with
    both suits keys of the table, an int against a str makes the chain of
    [compare] raise [TypeError] at its second test, so no branch returns. *)
Lemma compare_chain_mixed_values_raise :
  let a := mkCard (VInt 5) (VStr "heart") in
  let b := mkCard (VStr "heart") (VStr "heart") in
  is_key (suit a) ∧ is_key (suit b) ∧
  compare a b = Raise TypeError ∧
  ¬ (∃ r, compare a b = Ok (VInt r) ∧ (r = -1 ∨ r = 0 ∨ r = 1)).
Proof.
  intros a b. split; [done|]. split; [done|]. split; [done|].
  by intros (r & [=] & _).
Qed.

(** C10, amended: for two cards whose suits are keys of the table and whose
    values are of one type (two ints, two strs, or [None] twice) both chains
    are exhaustive: the first condition that holds exists, so one branch is
    taken, and [compare] and [suitCompare] return -1, 0 or 1, never
    [None]. *)
Theorem compare_chain_exhaustive (a b : Card) :
  is_key (suit a) → is_key (suit b) → kind (value a) = kind (value b) →
  (py_eq (value a) (value b) = true ∨
   (py_eq (value a) (value b) = false ∧
    py_gt (value a) (value b) = Ok true) ∨
   (py_eq (value a) (value b) = false ∧
    py_gt (value a) (value b) = Ok false ∧
    py_lt (value a) (value b) = Ok true)) ∧
  (∃ x y, dict_getitem suit_value_dict (suit a) = Ok x ∧
          dict_getitem suit_value_dict (suit b) = Ok y ∧
          ((x =? y)%Z = true ∨
           ((x =? y)%Z = false ∧ (y <? x)%Z = true) ∨
           ((x =? y)%Z = false ∧ (y <? x)%Z = false ∧ (x <? y)%Z = true))) ∧
  (∃ r, suitCompare a b = Ok (VInt r) ∧ (r = -1 ∨ r = 0 ∨ r = 1)) ∧
  (∃ r, compare a b = Ok (VInt r) ∧ (r = -1 ∨ r = 0 ∨ r = 1)).
Proof.
  intros Ha Hb Hk. split; [|split; [|split]].
  - unfold py_eq. case_bool_decide as Hv; [by left|right].
    destruct (value a) as [|x|s], (value b) as [|y|t]; simpl in *; try done.
    + destruct (Z.ltb_spec y x); [by left|right].
      assert (x ≠ y) by congruence.
      repeat split. f_equal. apply Z.ltb_lt. lia.
    + rewrite !ltb_compare, (String.compare_antisym s t).
      destruct (String.compare t s) eqn:Hc; simpl; auto.
      apply String.compare_eq_iff in Hc. by subst.
  - each_suit Ha; each_suit Hb; eexists _, _;
      (split; [by vm_compute|split; [by vm_compute|]]); vm_compute; auto.
  - rewrite suitCompare_sign by done. eexists; split; [done|apply sign_cases].
  - rewrite compare_sign by done. eexists; split; [done|apply sign_cases].
Qed.

Lemma compare_chain_exhaustive_witness :
  ∃ r, compare (mkCard (VInt 2) (VStr "club")) (mkCard (VInt 11) (VStr "club"))
         = Ok (VInt r) ∧ (r = -1 ∨ r = 0 ∨ r = 1).
Proof.
  exact (proj2 (proj2 (proj2
    (compare_chain_exhaustive
       (mkCard (VInt 2) (VStr "club")) (mkCard (VInt 11) (VStr "club"))
       I I eq_refl)))).
Defined.

(** ** Python lists *)

Section PyListFacts.
Context {A : Type}.
Implicit Types (l : list A) (i : Z).

Lemma list_pop_fits l i :
  fits_ssize_t i →
  list_pop i l =
    let n := Z.of_nat (length l) in
    let k := if (i <? 0)%Z then i + n else i in
    if (k <? 0)%Z || (n <=? k)%Z then (Raise IndexError, l)
    else match l !! Z.to_nat k with
         | Some x => (Ok x, delete (Z.to_nat k) l)
         | None => (Raise IndexError, l)
         end.
Proof.
  intros [Hlo Hhi]. unfold list_pop.
  destruct (Z.ltb_spec i ssize_t_min); [lia|].
  destruct (Z.ltb_spec ssize_t_max i); [lia|]. done.
Qed.

Lemma list_pop_overflow l i :
  ¬ fits_ssize_t i → list_pop i l = (Raise OverflowError, l).
Proof.
  intros Hi. unfold list_pop, fits_ssize_t in *.
  destruct (Z.ltb_spec i ssize_t_min); [done|].
  destruct (Z.ltb_spec ssize_t_max i); [done|lia].
Qed.

Lemma list_pop_0_cons (x : A) l : list_pop 0 (x :: l) = (Ok x, l).
Proof. done. Qed.

Lemma list_pop_out_of_range l i :
  fits_ssize_t i →
  ¬ (- Z.of_nat (length l) ≤ i < Z.of_nat (length l)) →
  list_pop i l = (Raise IndexError, l).
Proof.
  intros Hf Hi. rewrite list_pop_fits by done. cbv zeta.
  destruct (Z.ltb_spec i 0) as [Hneg|Hpos].
  - destruct (Z.ltb_spec (i + Z.of_nat (length l)) 0); [done|lia].
  - destruct (Z.ltb_spec i 0); [lia|].
    destruct (Z.leb_spec (Z.of_nat (length l)) i); [done|lia].
Qed.

Lemma list_pop_in_range l i :
  fits_ssize_t i →
  - Z.of_nat (length l) ≤ i < Z.of_nat (length l) →
  ∃ x, l !! pop_pos l i = Some x ∧
       list_pop i l = (Ok x, delete (pop_pos l i) l).
Proof.
  intros Hf Hi. rewrite list_pop_fits by done. unfold pop_pos. cbv zeta.
  set (k := if (i <? 0)%Z then i + Z.of_nat (length l) else i).
  assert (0 ≤ k < Z.of_nat (length l)) as Hk
    by (unfold k; destruct (Z.ltb_spec i 0); lia).
  destruct (Z.ltb_spec k 0); [lia|].
  destruct (Z.leb_spec (Z.of_nat (length l)) k); [lia|]. simpl.
  destruct (lookup_lt_is_Some_2 l (Z.to_nat k)) as [x Hx]; [lia|].
  exists x. by rewrite Hx.
Qed.

Lemma small_fits_ssize_t i : -1 ≤ i ≤ 0 → fits_ssize_t i.
Proof. unfold fits_ssize_t, ssize_t_min, ssize_t_max. lia. Qed.

Lemma list_swap_Permutation l (i j : nat) : (list_swap i j l).2 ≡ₚ l.
Proof.
  unfold list_swap. destruct (l !! j) eqn:Hj; [|done].
  destruct (l !! i) eqn:Hi; [|done]. simpl.
  by apply Permutation_insert_swap.
Qed.

Lemma list_swap_Ok l (i j : nat) :
  (i < length l)%nat → (j < length l)%nat →
  ∃ l', list_swap i j l = (Ok tt, l') ∧ length l' = length l.
Proof.
  intros [xi Hi]%lookup_lt_is_Some_2 [xj Hj]%lookup_lt_is_Some_2.
  unfold list_swap. rewrite Hi, Hj. eexists; split; [done|].
  by rewrite !length_insert.
Qed.
End PyListFacts.

(** ** [random.shuffle] *)

Section RandomFacts.
Context {rng : Type} (randbelow : nat → rng → nat * rng).
Context {A : Type}.
Implicit Types (x : list A) (g : rng).

(** Whatever the generator answers, the list stays a rearrangement. *)
Lemma shuffle_loop_Permutation (i : nat) x g :
  (shuffle_loop randbelow i (x, g)).2.1 ≡ₚ x.
Proof.
  revert x g. induction i as [|i IH]; intros x g; [done|].
  pose proof (list_swap_Permutation x (S i) (randbelow (S (S i)) g).1) as Hsw.
  cbn [shuffle_loop]. unfold mbind, M_bind, zoom, rand; simpl.
  destruct (randbelow (S (S i)) g) as [j g']; simpl in *.
  destruct (list_swap (S i) j x) as [[[]|e] x']; simpl in *; [|done].
  by rewrite IH.
Qed.

Lemma random_shuffle_Permutation x g :
  (random_shuffle randbelow (x, g)).2.1 ≡ₚ x.
Proof. apply shuffle_loop_Permutation. Qed.

Lemma shuffle_loop_Ok (i : nat) x g :
  randbelow_ok randbelow → (i < length x ∨ i = 0)%nat →
  (shuffle_loop randbelow i (x, g)).1 = Ok tt.
Proof.
  intros Hrb. revert x g. induction i as [|i IH]; intros x g Hi; [done|].
  pose proof (Hrb (S (S i)) g ltac:(lia)) as Hj.
  cbn [shuffle_loop]. unfold mbind, M_bind, zoom, rand; simpl.
  destruct (randbelow (S (S i)) g) as [j g']; simpl in *.
  destruct (list_swap_Ok x (S i) j) as (x' & -> & Hlen); [lia..|]. simpl.
  apply IH. lia.
Qed.

Lemma random_shuffle_Ok x g :
  randbelow_ok randbelow → (random_shuffle randbelow (x, g)).1 = Ok tt.
Proof.
  intros Hrb. apply shuffle_loop_Ok; [done|]. simpl. lia.
Qed.
End RandomFacts.

(** ** [Deck.__init__] *)

Lemma range_pos (n : Z) : 1 ≤ n → ∃ l, range n = 0 :: l.
Proof.
  intros Hn. unfold range.
  destruct (Z.to_nat n) as [|k] eqn:E; [lia|]. by eexists.
Qed.

(** Without a positive deck count the loop body never runs. *)
Lemma Deck_new_no_decks (n : Z) (j : bool) :
  n ≤ 0 → Deck_new n j = Ok (mkDeck [] []).
Proof.
  intros Hn. unfold Deck_new, Deck_init, range.
  by replace (Z.to_nat n) with 0%nat by lia.
Qed.

(** C2: [Deck(deckCount, useJokers)] must succeed for [deckCount >= 1] and
    hold 52 cards per copy.  The first card the loop builds is
    [Card(1, 'heart')], which the constructor rejects (see C1), so the call
    raises [CardValueError] for every [deckCount >= 1], jokers or not, and no
    deck comes back. *)
Theorem Deck_new_raises (number_of_decks : Z) (using_jokers : bool) :
  1 ≤ number_of_decks →
  Deck_new number_of_decks using_jokers = Raise CardValueError.
Proof.
  intros [l Hl]%range_pos. unfold Deck_new, Deck_init. by rewrite Hl.
Qed.

Lemma Deck_new_raises_witness :
  Deck_new 1 false = Raise CardValueError ∧
  Deck_new 2 false = Raise CardValueError.
Proof.
  split; [apply (Deck_new_raises 1 false)|apply (Deck_new_raises 2 false)]; lia.
Defined.

(** ** [Deck.draw], [Hand.draw], [Hand.discard] *)

Lemma Deck_draw_cons (d : Deck) (c : Card) (l : list Card) :
  deck d = c :: l → Deck_draw d = (Ok c, mkDeck l (discard d)).
Proof. destruct d as [dk ds]; simpl. by intros ->. Qed.

Lemma Deck_draw_nil (d : Deck) :
  deck d = [] → Deck_draw d = (Raise DeckOutOfCardsError, d).
Proof. destruct d as [dk ds]; simpl. by intros ->. Qed.

Lemma Hand_draw_cons (h : Hand) (d : Deck) (c : Card) (l : list Card) :
  deck d = c :: l →
  Hand_draw (h, d) = (Ok tt, (mkHand (hand h ++ [c]), mkDeck l (discard d))).
Proof.
  intros Hd. unfold Hand_draw, try_except, mbind, M_bind, zoom; simpl.
  by rewrite (Deck_draw_cons d c l Hd).
Qed.

Lemma Hand_draw_nil (h : Hand) (d : Deck) :
  deck d = [] → Hand_draw (h, d) = (Raise DeckOutOfCardsError, (h, d)).
Proof.
  intros Hd. unfold Hand_draw, try_except, mbind, M_bind, zoom; simpl.
  by rewrite (Deck_draw_nil d Hd).
Qed.

(** [OverflowError] is not an [IndexError]: the handler lets it pass. *)
Lemma Hand_discard_overflow (h : Hand) (d : Deck) (i : Z) :
  ¬ fits_ssize_t i → Hand_discard i (h, d) = (Raise OverflowError, (h, d)).
Proof.
  intros Hi. unfold Hand_discard, try_except, mbind, M_bind, zoom; simpl.
  rewrite (list_pop_overflow _ _ Hi). by destruct h.
Qed.

Lemma Hand_discard_out_of_range (h : Hand) (d : Deck) (i : Z) :
  fits_ssize_t i →
  ¬ (- Z.of_nat (length (hand h)) ≤ i < Z.of_nat (length (hand h))) →
  Hand_discard i (h, d) = (Raise IndexError, (h, d)).
Proof.
  intros Hf Hi. unfold Hand_discard, try_except, mbind, M_bind, zoom; simpl.
  rewrite (list_pop_out_of_range _ _ Hf Hi). by destruct h.
Qed.

Lemma Hand_discard_in_range (h : Hand) (d : Deck) (i : Z) :
  fits_ssize_t i →
  - Z.of_nat (length (hand h)) ≤ i < Z.of_nat (length (hand h)) →
  ∃ c, hand h !! pop_pos (hand h) i = Some c ∧
       Hand_discard i (h, d) =
         (Ok tt, (mkHand (delete (pop_pos (hand h) i) (hand h)),
                  mkDeck (deck d) (discard d ++ [c]))).
Proof.
  intros Hf Hi. destruct (list_pop_in_range _ _ Hf Hi) as (c & Hc & Hpop).
  exists c. split; [done|].
  unfold Hand_discard, try_except, mbind, M_bind, zoom; simpl.
  by rewrite Hpop.
Qed.

(** C7: [Deck.draw()] on a non-empty draw pile removes and returns its front
    card and leaves the discard pile; it raises [DeckOutOfCardsError] exactly
    when the draw pile is empty, and then both piles are as they were. *)
Theorem Deck_draw_front_or_exhausted (d : Deck) :
  (∀ c l, deck d = c :: l → Deck_draw d = (Ok c, mkDeck l (discard d))) ∧
  (deck d = [] → Deck_draw d = (Raise DeckOutOfCardsError, d)) ∧
  ((Deck_draw d).1 = Raise DeckOutOfCardsError ↔ deck d = []).
Proof.
  split; [apply Deck_draw_cons|]. split; [apply Deck_draw_nil|].
  destruct (deck d) as [|c l] eqn:Hd.
  - by rewrite (Deck_draw_nil d Hd).
  - by rewrite (Deck_draw_cons d c l Hd).
Qed.

Lemma Deck_draw_front_or_exhausted_witness :
  let c1 := mkCard (VStr "heart") (VStr "club") in
  let c2 := mkCard (VStr "club") (VStr "spade") in
  Deck_draw (mkDeck [c1; c2] [c2]) = (Ok c1, mkDeck [c2] [c2]) ∧
  Deck_draw (mkDeck [] [c2]) = (Raise DeckOutOfCardsError, mkDeck [] [c2]).
Proof.
  intros c1 c2. split.
  - exact (proj1 (Deck_draw_front_or_exhausted (mkDeck [c1; c2] [c2]))
             c1 [c2] eq_refl).
  - exact (proj1 (proj2 (Deck_draw_front_or_exhausted (mkDeck [] [c2])))
             eq_refl).
Defined.

(** C8: [Hand.draw(deck)] appends the deck's front card at the end of the
    hand; on an empty draw pile it raises [DeckOutOfCardsError] and leaves
    the hand (and the deck) as they were. *)
Theorem Hand_draw_appends_or_propagates (h : Hand) (d : Deck) :
  (∀ c l, deck d = c :: l →
     Hand_draw (h, d) = (Ok tt, (mkHand (hand h ++ [c]), mkDeck l (discard d)))) ∧
  (deck d = [] → Hand_draw (h, d) = (Raise DeckOutOfCardsError, (h, d))) ∧
  ((Hand_draw (h, d)).1 = Raise DeckOutOfCardsError ↔ deck d = []).
Proof.
  split; [apply Hand_draw_cons|]. split; [apply Hand_draw_nil|].
  destruct (deck d) as [|c l] eqn:Hd.
  - by rewrite (Hand_draw_nil h d Hd).
  - by rewrite (Hand_draw_cons h d c l Hd).
Qed.

Lemma Hand_draw_appends_or_propagates_witness :
  let c1 := mkCard (VStr "heart") (VStr "club") in
  let c2 := mkCard (VStr "club") (VStr "spade") in
  Hand_draw (mkHand [c2], mkDeck [c1; c2] [])
    = (Ok tt, (mkHand [c2; c1], mkDeck [c2] [])) ∧
  Hand_draw (mkHand [c2], mkDeck [] [c1])
    = (Raise DeckOutOfCardsError, (mkHand [c2], mkDeck [] [c1])).
Proof.
  intros c1 c2. split.
  - exact (proj1 (Hand_draw_appends_or_propagates
                    (mkHand [c2]) (mkDeck [c1; c2] [])) c1 [c2] eq_refl).
  - exact (proj1 (proj2 (Hand_draw_appends_or_propagates
                           (mkHand [c2]) (mkDeck [] [c1]))) eq_refl).
Defined.

(** C3, as claimed, fails: with one card in the hand the index -1 is not a
    position between 0 and the hand's size, yet [discard] does not raise: it
    takes the last card. *)
Lemma Hand_discard_negative_index_accepted :
  let c := mkCard (VStr "heart") (VStr "club") in
  ¬ ((Hand_discard (-1) (mkHand [c], mkDeck [] [])).1 = Raise IndexError ↔
     ¬ (0 ≤ -1 < Z.of_nat (length (hand (mkHand [c]))))) ∧
  Hand_discard (-1) (mkHand [c], mkDeck [] []) = (Ok tt, (mkHand [], mkDeck [] [c])).
Proof.
  intros c. split; [|done].
  intros [_ H]. simpl in H. discriminate H. lia.
Qed.

(** An index beyond the range of a [ssize_t] is no position of the hand
    either, and [discard] fails on it, but with [OverflowError]. *)
Lemma Hand_discard_huge_index :
  let c := mkCard (VStr "heart") (VStr "club") in
  Hand_discard (2 ^ 63) (mkHand [c], mkDeck [] [])
    = (Raise OverflowError, (mkHand [c], mkDeck [] [])) ∧
  Hand_discard (- 2 ^ 63 - 1) (mkHand [c], mkDeck [] [])
    = (Raise OverflowError, (mkHand [c], mkDeck [] [])).
Proof. done. Qed.

(** C3, amended: for an index that fits a C [ssize_t] (from -2**63 to
    2**63 - 1), [Hand.discard(deck, index)] raises [IndexError] exactly when
    [index] is outside [-size <= index < size]; for an index that does not
    fit it raises [OverflowError]; either way hand and deck are as they
    were.  Otherwise the card at position [index] (at [size + index] for a
    negative index) leaves the hand and is appended to the deck's discard
    pile; the draw pile is not touched. *)
Theorem Hand_discard_index (h : Hand) (d : Deck) (i : Z) :
  let n := Z.of_nat (length (hand h)) in
  ((Hand_discard i (h, d)).1 = Raise IndexError ↔
   fits_ssize_t i ∧ ¬ (- n ≤ i < n)) ∧
  ((Hand_discard i (h, d)).1 = Raise OverflowError ↔ ¬ fits_ssize_t i) ∧
  (¬ (fits_ssize_t i ∧ - n ≤ i < n) → (Hand_discard i (h, d)).2 = (h, d)) ∧
  (fits_ssize_t i → - n ≤ i < n →
   let k := Z.to_nat (if (i <? 0)%Z then n + i else i) in
   ∃ c, hand h !! k = Some c ∧
        Hand_discard i (h, d) =
          (Ok tt, (mkHand (delete k (hand h)),
                   mkDeck (deck d) (discard d ++ [c])))).
Proof.
  intros n.
  assert (Hcases :
    (¬ fits_ssize_t i ∧ Hand_discard i (h, d) = (Raise OverflowError, (h, d))) ∨
    (fits_ssize_t i ∧ ¬ (- n ≤ i < n) ∧
     Hand_discard i (h, d) = (Raise IndexError, (h, d))) ∨
    (fits_ssize_t i ∧ - n ≤ i < n ∧
     ∃ c, hand h !! pop_pos (hand h) i = Some c ∧
          Hand_discard i (h, d) =
            (Ok tt, (mkHand (delete (pop_pos (hand h) i) (hand h)),
                     mkDeck (deck d) (discard d ++ [c]))))).
  { destruct (decide (ssize_t_min ≤ i ≤ ssize_t_max)) as [Hf|Hf].
    - destruct (decide (- n ≤ i < n)) as [Hi|Hi].
      + right; right. eauto using Hand_discard_in_range.
      + right; left. eauto using Hand_discard_out_of_range.
    - left. eauto using Hand_discard_overflow. }
  split; [|split; [|split]].
  - destruct Hcases as [[Hf ->]|[(Hf & Hi & ->)|(Hf & Hi & c & _ & ->)]];
      simpl; split; try done; tauto.
  - destruct Hcases as [[Hf ->]|[(Hf & Hi & ->)|(Hf & Hi & c & _ & ->)]];
      simpl; split; try done; tauto.
  - destruct Hcases as [[Hf ->]|[(Hf & Hi & ->)|(Hf & Hi & c & _ & ->)]];
      simpl; try done; tauto.
  - intros Hf Hi k.
    destruct (Hand_discard_in_range h d i Hf Hi) as (c & Hc & ->).
    replace k with (pop_pos (hand h) i); [by exists c|].
    unfold pop_pos, k, n. by rewrite (Z.add_comm i).
Qed.

Lemma Hand_discard_index_witness :
  let c1 := mkCard (VStr "heart") (VStr "club") in
  let c2 := mkCard (VStr "club") (VStr "spade") in
  let c3 := mkCard (VStr "spade") (VStr "spade") in
  (Hand_discard 3 (mkHand [c1; c2; c3], mkDeck [] [])).1 = Raise IndexError ∧
  (Hand_discard 3 (mkHand [c1; c2; c3], mkDeck [] [])).2
    = (mkHand [c1; c2; c3], mkDeck [] []) ∧
  ∃ c, [c1; c2; c3] !! 1%nat = Some c ∧
       Hand_discard (-2) (mkHand [c1; c2; c3], mkDeck [] [])
         = (Ok tt, (mkHand [c1; c3], mkDeck [] [c])).
Proof.
  intros c1 c2 c3. split; [|split].
  - apply (proj1 (Hand_discard_index (mkHand [c1; c2; c3]) (mkDeck [] []) 3)).
    split; [unfold fits_ssize_t, ssize_t_min, ssize_t_max; lia|simpl; lia].
  - apply (proj1 (proj2 (proj2
      (Hand_discard_index (mkHand [c1; c2; c3]) (mkDeck [] []) 3)))).
    simpl. lia.
  - apply (proj2 (proj2 (proj2
      (Hand_discard_index (mkHand [c1; c2; c3]) (mkDeck [] []) (-2))))).
    + unfold fits_ssize_t, ssize_t_min, ssize_t_max. lia.
    + simpl. lia.
Defined.

(** ** [Deck.shuffle] *)

Section ShuffleFacts.
Context {rng : Type} (randbelow : nat → rng → nat * rng).
Implicit Types (d : Deck) (g : rng).

(** The two assignments, then the library call on the joined list. *)
Lemma Deck_shuffle_unfold d g :
  Deck_shuffle randbelow (d, g) =
    let (r, t) := random_shuffle randbelow (deck d ++ discard d, g) in
    (r, (mkDeck t.1 [], t.2)).
Proof. by destruct d. Qed.

Lemma Deck_shuffle_state d g :
  deck (Deck_shuffle randbelow (d, g)).2.1 ≡ₚ deck d ++ discard d ∧
  discard (Deck_shuffle randbelow (d, g)).2.1 = [].
Proof.
  rewrite Deck_shuffle_unfold.
  pose proof (random_shuffle_Permutation randbelow (deck d ++ discard d) g) as H.
  by destruct (random_shuffle randbelow (deck d ++ discard d, g)) as [r [x g']].
Qed.

Lemma Deck_shuffle_Ok d g :
  randbelow_ok randbelow → (Deck_shuffle randbelow (d, g)).1 = Ok tt.
Proof.
  intros Hrb. rewrite Deck_shuffle_unfold.
  pose proof (random_shuffle_Ok randbelow (deck d ++ discard d) g Hrb) as H.
  by destruct (random_shuffle randbelow (deck d ++ discard d, g)) as [r [x g']].
Qed.
End ShuffleFacts.

(** C6: with a generator that keeps the contract of [randbelow],
    [Deck.shuffle()] returns, the draw pile it leaves is a permutation of
    the former draw pile followed by the former discard pile, and the
    discard pile it leaves is empty. *)
Theorem Deck_shuffle_permutation
    {rng : Type} (randbelow : nat → rng → nat * rng) (d : Deck) (g : rng) :
  randbelow_ok randbelow →
  ∃ d' g', Deck_shuffle randbelow (d, g) = (Ok tt, (d', g')) ∧
           deck d' ≡ₚ deck d ++ discard d ∧
           discard d' = [].
Proof.
  intros Hrb.
  pose proof (Deck_shuffle_Ok randbelow d g Hrb) as Hok.
  pose proof (Deck_shuffle_state randbelow d g) as Hst.
  destruct (Deck_shuffle randbelow (d, g)) as [r [d' g']]; simpl in *.
  exists d', g'. by subst.
Qed.

Lemma lcg_randbelow_ok : randbelow_ok lcg_randbelow.
Proof.
  intros n g Hn. unfold lcg_randbelow; simpl.
  pose proof (Z.mod_pos_bound g (Z.of_nat n) ltac:(lia)). lia.
Qed.

Lemma Deck_shuffle_permutation_witness :
  let c1 := mkCard (VStr "heart") (VStr "club") in
  let c2 := mkCard (VStr "club") (VStr "spade") in
  let c3 := mkCard (VStr "spade") (VStr "spade") in
  ∃ d' g', Deck_shuffle lcg_randbelow (mkDeck [c1; c2] [c3; c1], 11)
             = (Ok tt, (d', g')) ∧
           deck d' ≡ₚ [c1; c2] ++ [c3; c1] ∧
           discard d' = [].
Proof.
  intros c1 c2 c3.
  exact (Deck_shuffle_permutation lcg_randbelow (mkDeck [c1; c2] [c3; c1]) 11
           lcg_randbelow_ok).
Defined.

(** ** Conservation of cards *)

Section PlayFacts.
Context {rng : Type} (randbelow : nat → rng → nat * rng).
Implicit Types (w : World rng) (hs : list Hand).

Lemma hands_cards_insert hs (h : nat) (self self' : Hand) :
  hs !! h = Some self →
  ∃ rest, concat (hand <$> hs) ≡ₚ hand self ++ rest ∧
          concat (hand <$> <[h:=self']> hs) ≡ₚ hand self' ++ rest.
Proof.
  intros Hh. exists (concat (hand <$> take h hs) ++ concat (hand <$> drop (S h) hs)).
  split.
  - rewrite <-(take_drop_middle hs h self Hh) at 1.
    rewrite fmap_app, concat_app, fmap_cons; simpl.
    by rewrite Permutation_app_swap_app.
  - rewrite insert_take_drop by (by eapply lookup_lt_Some).
    rewrite fmap_app, concat_app, fmap_cons; simpl.
    by rewrite Permutation_app_swap_app.
Qed.

Lemma Hand_draw_cards (h : Hand) (d : Deck) :
  let s := (Hand_draw (h, d)).2 in
  deck s.2 ++ hand s.1 ≡ₚ deck d ++ hand h ∧ discard s.2 = discard d.
Proof.
  destruct (deck d) as [|c l] eqn:Hd.
  - rewrite (Hand_draw_nil h d Hd); simpl. by rewrite Hd.
  - rewrite (Hand_draw_cons h d c l Hd); simpl.
    split; [|done]. rewrite (assoc (++)), <-Permutation_cons_append.
    by rewrite Permutation_middle.
Qed.

Lemma Hand_discard_cards (h : Hand) (d : Deck) (i : Z) :
  let s := (Hand_discard i (h, d)).2 in
  discard s.2 ++ hand s.1 ≡ₚ discard d ++ hand h ∧ deck s.2 = deck d.
Proof.
  destruct (decide (ssize_t_min ≤ i ≤ ssize_t_max)) as [Hf|Hf];
    [|by rewrite (Hand_discard_overflow h d i Hf)].
  destruct (decide (- Z.of_nat (length (hand h)) ≤ i < Z.of_nat (length (hand h))))
    as [Hi|Hi].
  - destruct (Hand_discard_in_range h d i Hf Hi) as (c & Hc & ->); simpl.
    split; [|done]. rewrite <-(assoc (++)); simpl.
    by rewrite <-(delete_Permutation _ _ _ Hc).
  - by rewrite (Hand_discard_out_of_range h d i Hf Hi).
Qed.

(** One call moves cards between the places and nothing else. *)
Lemma step_cards w (o : op) : all_cards (step randbelow w o) ≡ₚ all_cards w.
Proof.
  destruct w as [d hs g]. unfold all_cards.
  destruct o as [|h|h i|]; simpl.
  - rewrite fmap_app, concat_app; simpl. by rewrite !app_nil_r.
  - destruct (hs !! h) as [self|] eqn:Hh; [|done].
    pose proof (Hand_draw_cards self d) as [Hp Hd].
    destruct (Hand_draw (self, d)).2 as [self' d']; simpl in *.
    destruct (hands_cards_insert hs h self self' Hh) as (rest & -> & ->).
    rewrite Hd, !(Permutation_app_swap_app _ (discard d)).
    by rewrite !(assoc (++) (deck _)), Hp.
  - destruct (hs !! h) as [self|] eqn:Hh; [|done].
    pose proof (Hand_discard_cards self d i) as [Hp Hd].
    destruct (Hand_discard i (self, d)).2 as [self' d']; simpl in *.
    destruct (hands_cards_insert hs h self self' Hh) as (rest & -> & ->).
    by rewrite Hd, !(assoc (++) (discard _)), Hp.
  - pose proof (Deck_shuffle_state randbelow d g) as [Hp Hd].
    destruct (Deck_shuffle randbelow (d, g)).2 as [d' g']; simpl in *.
    by rewrite Hp, Hd, <-(assoc (++)).
Qed.

Lemma run_cards (ops : list op) w :
  all_cards (run randbelow ops w) ≡ₚ all_cards w.
Proof.
  revert w. induction ops as [|o ops IH]; intros w; [done|].
  unfold run in *; simpl. by rewrite IH, step_cards.
Qed.
End PlayFacts.

(** C9: after any sequence of draw, discard and shuffle calls (and new
    hands) the cards in the draw pile, the discard pile and the hands are the
    cards that were there before, each as often as before: none lost, none
    duplicated, the total count unchanged; if the cards were distinct, each
    is still in exactly one place.  Starting from any draw pile of 52 cards,
    five draws into a new hand and a discard of index 2 leave 47 cards in the
    draw pile, 4 in the hand and 1 in the discard pile, 52 in all. *)
Theorem cards_conserved
    {rng : Type} (randbelow : nat → rng → nat * rng)
    (ops : list op) (w : World rng) :
  all_cards (run randbelow ops w) ≡ₚ all_cards w ∧
  length (all_cards (run randbelow ops w)) = length (all_cards w) ∧
  (NoDup (all_cards w) → NoDup (all_cards (run randbelow ops w))) ∧
  (∀ (pile : list Card) (g : rng),
     length pile = 52%nat →
     let w0 := mkWorld (mkDeck pile []) [] g in
     let w' := run randbelow
                 ([OpNewHand; OpDraw 0; OpDraw 0; OpDraw 0; OpDraw 0; OpDraw 0;
                   OpDiscard 0 2]) w0 in
     length (all_cards w0) = 52%nat ∧
     length (deck (w_deck w')) = 47%nat ∧
     length (discard (w_deck w')) = 1%nat ∧
     (∃ h, w_hands w' = [h] ∧ length (hand h) = 4%nat) ∧
     length (all_cards w') = 52%nat).
Proof.
  pose proof (run_cards randbelow ops w) as Hp.
  split; [done|]. split; [by rewrite Hp|]. split; [by rewrite Hp|].
  intros pile g Hlen w0 w'.
  assert (Hw0 : length (all_cards w0) = 52%nat).
  { unfold all_cards, w0; simpl. by rewrite app_nil_r. }
  assert (Hw' : length (all_cards w') = 52%nat).
  { unfold w'. by rewrite run_cards. }
  split; [done|]. split; [|split; [|split; [|done]]]; clear Hw0 Hw'.
  all: destruct pile as [|c1 [|c2 [|c3 [|c4 [|c5 l]]]]]; try discriminate Hlen.
  all: assert (Hrun : w' = mkWorld (mkDeck l [c3]) [mkHand [c1; c2; c4; c5]] g)
         by reflexivity.
  all: rewrite Hrun; simpl in *.
  - lia.
  - done.
  - by eexists.
Qed.

Lemma cards_conserved_witness :
  let w' := run lcg_randbelow
              [OpNewHand; OpDraw 0; OpDraw 0; OpDraw 0; OpDraw 0; OpDraw 0;
               OpDiscard 0 2] (mkWorld (mkDeck sample_pile []) [] 11) in
  length sample_pile = 52%nat ∧
  length (deck (w_deck w')) = 47%nat ∧
  length (discard (w_deck w')) = 1%nat ∧
  (∃ h, w_hands w' = [h] ∧ length (hand h) = 4%nat) ∧
  length (all_cards w') = 52%nat.
Proof.
  intros w'. split; [reflexivity|].
  exact (proj2 (proj2 (proj2 (proj2
    (cards_conserved lcg_randbelow [] (mkWorld (mkDeck [] []) [] 0))))
    sample_pile 11 eq_refl)).
Defined.

(** * Further properties of the code *)

(** ** [Card.__init__]: which call ends how *)

Lemma py_in_elem_of (x : pyval) (l : list pyval) : py_in x l = true ↔ x ∈ l.
Proof.
  unfold py_in, py_eq. induction l as [|y l IH]; simpl.
  - split; [done|]. by intros ?%elem_of_nil.
  - rewrite orb_true_iff, IH, elem_of_cons, bool_decide_eq_true. done.
Qed.

Lemma py_in_not_elem_of (x : pyval) (l : list pyval) : py_in x l = false ↔ x ∉ l.
Proof. rewrite <-py_in_elem_of. by destruct (py_in x l). Qed.

(** The rank test comes first: a value that is not a suit name gives
    [CardValueError] whatever the suit; [CardSuitError] needs a value that
    is a suit name; the call returns only when both arguments are suit
    names, and then the card stores them as given. *)
Theorem Card_init_outcomes (v s : pyval) :
  (Card_init v s = Raise CardValueError ↔ v ∉ suits) ∧
  (Card_init v s = Raise CardSuitError ↔ v ∈ suits ∧ s ∉ suits) ∧
  (Card_init v s = Ok (mkCard v s) ↔ v ∈ suits ∧ s ∈ suits) ∧
  (∀ c, Card_init v s = Ok c → c = mkCard v s).
Proof.
  unfold Card_init.
  destruct (py_in v suits) eqn:Hv, (py_in s suits) eqn:Hs; simpl;
    first [apply py_in_elem_of in Hv | apply py_in_not_elem_of in Hv];
    first [apply py_in_elem_of in Hs | apply py_in_not_elem_of in Hs];
    naive_solver.
Qed.

Lemma compare_order_constructed_witness :
  let a := mkCard (VStr "club") (VStr "heart") in
  let b := mkCard (VStr "heart") (VStr "club") in
  let c := mkCard (VStr "heart") (VStr "spade") in
  (∃ r, (r = -1 ∨ r = 0 ∨ r = 1) ∧
        compare a b = Ok (VInt r) ∧ compare b a = Ok (VInt (- r))) ∧
  (compare a b = Ok (VInt 0) ↔ a = b) ∧
  (compare a b = Ok (VInt (-1)) → compare b c = Ok (VInt (-1)) →
   compare a c = Ok (VInt (-1))).
Proof.
  intros a b c.
  exact (compare_order_constructed
    (VStr "club") (VStr "heart") (VStr "heart") (VStr "club")
    (VStr "heart") (VStr "spade") a b c eq_refl eq_refl eq_refl).
Defined.

(** ** [Card.compare]: what it raises, and when the suit is not looked at *)

(** [suitCompare] raises [KeyError] exactly when one of the two suits is
    not a key of the table (a card without a suit, a misspelt suit), and so
    does [compare] on two such cards of equal value. *)
Theorem suitCompare_KeyError (a b : Card) :
  (suitCompare a b = Raise KeyError ↔ ¬ (is_key (suit a) ∧ is_key (suit b))) ∧
  (value a = value b → ¬ (is_key (suit a) ∧ is_key (suit b)) →
   compare a b = Raise KeyError).
Proof.
  split.
  - split; [|apply suitCompare_not_key].
    intros Hr [Ha Hb]. by rewrite suitCompare_sign in Hr.
  - intros Hv Hk. unfold compare, py_eq.
    rewrite bool_decide_eq_true_2 by done. by apply suitCompare_not_key.
Qed.

Lemma suitCompare_KeyError_witness :
  compare (mkCard (VInt 14) VNone) (mkCard (VInt 14) (VStr "heart"))
    = Raise KeyError.
Proof.
  apply (proj2 (suitCompare_KeyError
                  (mkCard (VInt 14) VNone) (mkCard (VInt 14) (VStr "heart")))).
  - reflexivity.
  - simpl. tauto.
Defined.

Lemma ltb_irrefl_asym (s t : string) :
  String.ltb s t = true → s ≠ t ∧ String.ltb t s = false.
Proof.
  rewrite !ltb_compare, (String.compare_antisym s t).
  destruct (String.compare t s) eqn:Hc; simpl; try done.
  intros _. split; [|done]. intros ->.
  pose proof (value_cmp_refl (VStr t)) as Hr. simpl in Hr. congruence.
Qed.

(** When the values differ, the suits are never looked up: if
    [a.value < b.value] then [a.compare(b)] is -1 and [b.compare(a)] is 1,
    also for cards whose suit is missing or not in the table. *)
Theorem compare_by_value_alone (a b : Card) :
  py_lt (value a) (value b) = Ok true →
  compare a b = Ok (VInt (-1)) ∧ compare b a = Ok (VInt 1).
Proof.
  unfold compare, py_eq.
  destruct (value a) as [|x|s], (value b) as [|y|t]; simpl; try done.
  - intros [= Hlt%Z.ltb_lt].
    rewrite !bool_decide_eq_false_2 by (intros [=]; lia). simpl.
    destruct (Z.ltb_spec y x); [lia|]. simpl.
    destruct (Z.ltb_spec x y); [done|lia].
  - intros [= Hlt]. destruct (ltb_irrefl_asym s t Hlt) as [Hne Hgt].
    rewrite !bool_decide_eq_false_2 by congruence. simpl.
    by rewrite Hgt, Hlt.
Qed.

Lemma compare_by_value_alone_witness :
  compare (mkCard (VInt 3) (VStr "heart")) (mkCard (VInt 14) VNone)
    = Ok (VInt (-1)) ∧
  compare (mkCard (VInt 14) VNone) (mkCard (VInt 3) (VStr "heart"))
    = Ok (VInt 1).
Proof.
  exact (compare_by_value_alone
           (mkCard (VInt 3) (VStr "heart")) (mkCard (VInt 14) VNone) eq_refl).
Defined.

(** Two cards whose values are of different types (an int against a str,
    [None] against either) cannot be compared: [compare] raises [TypeError],
    whatever the suits. *)
Theorem compare_mixed_TypeError (a b : Card) :
  kind (value a) ≠ kind (value b) → compare a b = Raise TypeError.
Proof.
  unfold compare, py_eq.
  destruct (value a) as [|x|s], (value b) as [|y|t]; simpl; try done;
    intros _; by rewrite bool_decide_eq_false_2.
Qed.

Lemma compare_mixed_TypeError_witness :
  compare (mkCard (VInt 5) (VStr "heart")) (mkCard (VStr "heart") (VStr "heart"))
    = Raise TypeError.
Proof.
  apply (compare_mixed_TypeError
           (mkCard (VInt 5) (VStr "heart")) (mkCard (VStr "heart") (VStr "heart"))).
  simpl. discriminate.
Defined.

(** ** [Deck.__init__]: the only deck it returns *)

(** [Deck(n, jokers)] returns exactly when [n <= 0], and then both piles
    are empty, with jokers asked for or not. *)
Theorem Deck_new_only_empty (n : Z) (j : bool) (d : Deck) :
  Deck_new n j = Ok d ↔ n ≤ 0 ∧ d = mkDeck [] [].
Proof.
  destruct (decide (n ≤ 0)) as [Hn|Hn].
  - rewrite (Deck_new_no_decks n j Hn). naive_solver.
  - destruct (range_pos n ltac:(lia)) as [l Hl].
    unfold Deck_new, Deck_init. rewrite Hl. simpl. split; [done|tauto].
Qed.

(** ** Drawing and discarding in a row *)

Lemma for_in_cons {S A} (x : A) (xs : list A) (body : A → M S unit) (s : S) :
  for_in (x :: xs) body s =
    match body x s with
    | (Ok _, s') => for_in xs body s'
    | (Raise e, s') => (Raise e, s')
    end.
Proof. done. Qed.

Lemma length_range (k : nat) : length (range (Z.of_nat k)) = k.
Proof. unfold range. by rewrite length_fmap, length_seq, Nat2Z.id. Qed.

(** [for _ in xs: hand.draw(deck)]: the loop takes cards off the front
    until [xs] or the draw pile runs out. *)
Lemma draw_loop {X} (xs : list X) (h : Hand) (d : Deck) :
  for_in xs (λ _, Hand_draw) (h, d) =
    (if decide (length xs ≤ length (deck d))%nat
     then Ok tt else Raise DeckOutOfCardsError,
     (mkHand (hand h ++ take (length xs) (deck d)),
      mkDeck (drop (length xs) (deck d)) (discard d))).
Proof.
  revert h d. induction xs as [|x xs IH]; intros [hs] [dk ds].
  - cbn [for_in length take drop hand deck discard]. rewrite app_nil_r.
    case_decide; [done|lia].
  - rewrite for_in_cons. destruct dk as [|c l].
    + rewrite Hand_draw_nil by done.
      cbn [length take drop hand deck discard]. rewrite app_nil_r.
      case_decide; [lia|done].
    + rewrite (Hand_draw_cons _ _ c l) by done. rewrite IH.
      cbn [length take drop hand deck discard].
      rewrite <-(assoc (++)). simpl app.
      repeat case_decide; first [done|lia].
Qed.

(** [for _ in range(k): hand.draw(deck)] with at least [k] cards in the
    draw pile returns; the hand has gained the first [k] cards of the draw
    pile, in the pile's order, and the pile has lost them. *)
Theorem draw_k_cards (k : nat) (h : Hand) (d : Deck) :
  (k ≤ length (deck d))%nat →
  for_in (range (Z.of_nat k)) (λ _, Hand_draw) (h, d) =
    (Ok tt, (mkHand (hand h ++ take k (deck d)),
             mkDeck (drop k (deck d)) (discard d))).
Proof.
  intros Hk. rewrite draw_loop, length_range. by rewrite decide_True.
Qed.

Lemma draw_k_cards_witness :
  let c1 := mkCard (VStr "heart") (VStr "club") in
  let c2 := mkCard (VStr "club") (VStr "spade") in
  let c3 := mkCard (VStr "spade") (VStr "spade") in
  for_in (range 2) (λ _, Hand_draw) (mkHand [c3], mkDeck [c1; c2; c3] [c2]) =
    (Ok tt, (mkHand [c3; c1; c2], mkDeck [c3] [c2])).
Proof.
  intros c1 c2 c3.
  apply (draw_k_cards 2 (mkHand [c3]) (mkDeck [c1; c2; c3] [c2])). simpl. lia.
Defined.

(** The same loop with fewer than [k] cards in the draw pile raises
    [DeckOutOfCardsError], and the draws made before it stay made: the
    hand has gained the whole draw pile, which is left empty. *)
Theorem draw_past_the_end (k : nat) (h : Hand) (d : Deck) :
  (length (deck d) < k)%nat →
  for_in (range (Z.of_nat k)) (λ _, Hand_draw) (h, d) =
    (Raise DeckOutOfCardsError,
     (mkHand (hand h ++ deck d), mkDeck [] (discard d))).
Proof.
  intros Hk. rewrite draw_loop, length_range.
  rewrite decide_False, take_ge, drop_ge by lia. done.
Qed.

Lemma draw_past_the_end_witness :
  let c1 := mkCard (VStr "heart") (VStr "club") in
  let c2 := mkCard (VStr "club") (VStr "spade") in
  for_in (range 3) (λ _, Hand_draw) (mkHand [], mkDeck [c1; c2] []) =
    (Raise DeckOutOfCardsError, (mkHand [c1; c2], mkDeck [] [])).
Proof.
  intros c1 c2.
  apply (draw_past_the_end 3 (mkHand []) (mkDeck [c1; c2] [])). simpl. lia.
Defined.

Lemma list_pop_last {A} (l : list A) (x : A) :
  list_pop (-1) (l ++ [x]) = (Ok x, l).
Proof.
  destruct (list_pop_in_range (l ++ [x]) (-1)) as (y & Hy & ->).
  { apply small_fits_ssize_t. lia. }
  { rewrite length_app. simpl. lia. }
  assert (Hpos : pop_pos (l ++ [x]) (-1) = length l).
  { unfold pop_pos. rewrite length_app. simpl. lia. }
  rewrite Hpos in *. rewrite list_lookup_middle in Hy by done.
  rewrite (delete_middle l [] x), app_nil_r. congruence.
Qed.

Lemma Hand_discard_last (hs : list Card) (c : Card) (d : Deck) :
  Hand_discard (-1) (mkHand (hs ++ [c]), d) =
    (Ok tt, (mkHand hs, mkDeck (deck d) (discard d ++ [c]))).
Proof.
  unfold Hand_discard, try_except, mbind, M_bind, zoom; simpl.
  by rewrite list_pop_last.
Qed.

Lemma Hand_discard_first (hs : list Card) (c : Card) (d : Deck) :
  Hand_discard 0 (mkHand (c :: hs), d) =
    (Ok tt, (mkHand hs, mkDeck (deck d) (discard d ++ [c]))).
Proof. done. Qed.

(** [hand.draw(deck); hand.discard(deck, -1)] on a non-empty draw pile
    gives the hand back as it was and moves the front card of the draw pile
    to the end of the discard pile, unchanged. *)
Theorem draw_then_discard_last (h : Hand) (d : Deck) (c : Card) (l : list Card) :
  deck d = c :: l →
  (Hand_draw;; Hand_discard (-1)) (h, d) =
    (Ok tt, (h, mkDeck l (discard d ++ [c]))).
Proof.
  intros Hd. unfold mbind, M_bind.
  rewrite (Hand_draw_cons h d c l Hd), Hand_discard_last. by destruct h.
Qed.

Lemma draw_then_discard_last_witness :
  let c1 := mkCard (VStr "heart") (VStr "club") in
  let c2 := mkCard (VStr "club") (VStr "spade") in
  (Hand_draw;; Hand_discard (-1)) (mkHand [c2], mkDeck [c1; c2] [c2]) =
    (Ok tt, (mkHand [c2], mkDeck [c2] [c2; c1])).
Proof.
  intros c1 c2.
  exact (draw_then_discard_last (mkHand [c2]) (mkDeck [c1; c2] [c2]) c1 [c2] eq_refl).
Defined.

(** A hand hands its card to whatever deck it is given: a card drawn from
    one deck and discarded into another ends in the second deck's discard
    pile, and the first deck is a card short. *)
Theorem discard_into_another_deck
    (h : Hand) (d1 d2 : Deck) (c : Card) (l : list Card) :
  deck d1 = c :: l →
  ∃ h1, Hand_draw (h, d1) = (Ok tt, (h1, mkDeck l (discard d1))) ∧
        Hand_discard (-1) (h1, d2) =
          (Ok tt, (h, mkDeck (deck d2) (discard d2 ++ [c]))).
Proof.
  intros Hd. eexists. split; [by apply Hand_draw_cons|].
  rewrite Hand_discard_last. by destruct h.
Qed.

Lemma discard_into_another_deck_witness :
  let c1 := mkCard (VStr "heart") (VStr "club") in
  let c2 := mkCard (VStr "club") (VStr "spade") in
  ∃ h1, Hand_draw (mkHand [], mkDeck [c1] []) = (Ok tt, (h1, mkDeck [] [])) ∧
        Hand_discard (-1) (h1, mkDeck [c2] []) =
          (Ok tt, (mkHand [], mkDeck [c2] [c1])).
Proof.
  intros c1 c2.
  exact (discard_into_another_deck (mkHand []) (mkDeck [c1] []) (mkDeck [c2] [])
           c1 [] eq_refl).
Defined.

(** [for _ in xs: hand.discard(deck, 0)] *)
Lemma discard_loop {X} (xs : list X) (h : Hand) (d : Deck) :
  (length xs ≤ length (hand h))%nat →
  for_in xs (λ _, Hand_discard 0) (h, d) =
    (Ok tt, (mkHand (drop (length xs) (hand h)),
             mkDeck (deck d) (discard d ++ take (length xs) (hand h)))).
Proof.
  revert h d. induction xs as [|x xs IH]; intros [hs] [dk ds] Hk.
  - cbn [for_in length take drop hand deck discard]. by rewrite app_nil_r.
  - destruct hs as [|c hs]; cbn [length hand] in Hk; [lia|].
    rewrite for_in_cons, Hand_discard_first.
    rewrite IH by (cbn [length hand]; lia).
    cbn [length take drop hand deck discard]. by rewrite <-(assoc (++)).
Qed.

(** Discarding index 0 as often as the hand has cards empties the hand and
    appends its cards, in the hand's order, to the discard pile; the draw
    pile is not touched. *)
Theorem discard_whole_hand (h : Hand) (d : Deck) :
  for_in (range (Z.of_nat (length (hand h)))) (λ _, Hand_discard 0) (h, d) =
    (Ok tt, (mkHand [], mkDeck (deck d) (discard d ++ hand h))).
Proof.
  rewrite discard_loop; rewrite length_range; [|done].
  by rewrite drop_all, firstn_all.
Qed.

(** [for _ in xs: hand.draw(deck); hand.discard(deck, -1)] *)
Lemma cycle_loop {X} (xs : list X) (h : Hand) (d : Deck) :
  (length xs ≤ length (deck d))%nat →
  for_in xs (λ _, Hand_draw;; Hand_discard (-1)) (h, d) =
    (Ok tt, (h, mkDeck (drop (length xs) (deck d))
                       (discard d ++ take (length xs) (deck d)))).
Proof.
  revert d. induction xs as [|x xs IH]; intros [dk ds] Hk.
  - cbn [for_in length take drop deck discard]. by rewrite app_nil_r.
  - destruct dk as [|c l]; cbn [length deck] in Hk; [lia|].
    rewrite for_in_cons, (draw_then_discard_last h _ c l) by done.
    rewrite IH by (cbn [length deck]; lia).
    cbn [length take drop deck discard]. by rewrite <-(assoc (++)).
Qed.

(** Passing the whole draw pile through a hand, one card at a time, leaves
    the hand as it was, the draw pile empty, and the discard pile extended
    by the former draw pile in its order. *)
Theorem cycle_whole_deck (h : Hand) (d : Deck) :
  for_in (range (Z.of_nat (length (deck d))))
         (λ _, Hand_draw;; Hand_discard (-1)) (h, d) =
    (Ok tt, (h, mkDeck [] (discard d ++ deck d))).
Proof.
  rewrite cycle_loop; rewrite length_range; [|done].
  by rewrite drop_all, firstn_all.
Qed.

(** ** [Deck.shuffle] at the edges, and after exhaustion *)

(** With at most one card in the two piles together [shuffle] asks the
    generator nothing: the generator is left as it was and the draw pile is
    the former draw pile followed by the former discard pile. *)
Theorem Deck_shuffle_short
    {rng : Type} (randbelow : nat → rng → nat * rng) (d : Deck) (g : rng) :
  (length (deck d ++ discard d) ≤ 1)%nat →
  Deck_shuffle randbelow (d, g) =
    (Ok tt, (mkDeck (deck d ++ discard d) [], g)).
Proof.
  intros Hl. rewrite Deck_shuffle_unfold. unfold random_shuffle. simpl.
  by replace (length (deck d ++ discard d) - 1)%nat with 0%nat by lia.
Qed.

Lemma Deck_shuffle_short_witness :
  let c1 := mkCard (VStr "heart") (VStr "club") in
  Deck_shuffle lcg_randbelow (mkDeck [] [c1], 11) = (Ok tt, (mkDeck [c1] [], 11)).
Proof.
  intros c1.
  apply (Deck_shuffle_short lcg_randbelow (mkDeck [] [c1]) 11). simpl. lia.
Defined.

(** After [shuffle] a draw succeeds as soon as either pile held a card,
    an exhausted draw pile included: the card drawn and the cards left to
    draw are together a permutation of the cards the two piles held, so the
    card drawn is one of them and the draw pile holds the others. *)
Theorem shuffle_then_draw
    {rng : Type} (randbelow : nat → rng → nat * rng) (d : Deck) (g : rng) :
  randbelow_ok randbelow → deck d ++ discard d ≠ [] →
  ∃ d1 g1 c d2,
    Deck_shuffle randbelow (d, g) = (Ok tt, (d1, g1)) ∧
    Deck_draw d1 = (Ok c, d2) ∧
    c :: deck d2 ≡ₚ deck d ++ discard d ∧
    c ∈ deck d ++ discard d ∧
    S (length (deck d2)) = length (deck d ++ discard d) ∧
    discard d2 = [].
Proof.
  intros Hrb Hne.
  pose proof (Deck_shuffle_Ok randbelow d g Hrb) as Hok.
  pose proof (Deck_shuffle_state randbelow d g) as [Hp Hd].
  destruct (Deck_shuffle randbelow (d, g)) as [r [d1 g1]]; simpl in *. subst r.
  destruct (deck d1) as [|c l] eqn:Hd1.
  { apply Permutation_nil_l in Hp. done. }
  exists d1, g1, c, (mkDeck l (discard d1)).
  split; [done|]. split; [by apply Deck_draw_cons|].
  rewrite <-Hp. simpl. split; [done|]. split; [by left|done].
Qed.

Lemma shuffle_then_draw_witness :
  let c1 := mkCard (VStr "heart") (VStr "club") in
  let c2 := mkCard (VStr "club") (VStr "spade") in
  ∃ d1 g1 c d2,
    Deck_shuffle lcg_randbelow (mkDeck [] [c1; c2], 11) = (Ok tt, (d1, g1)) ∧
    Deck_draw d1 = (Ok c, d2) ∧
    c :: deck d2 ≡ₚ [] ++ [c1; c2] ∧
    c ∈ [] ++ [c1; c2] ∧
    S (length (deck d2)) = length ([] ++ [c1; c2]) ∧
    discard d2 = [].
Proof.
  intros c1 c2.
  apply (shuffle_then_draw lcg_randbelow (mkDeck [] [c1; c2]) 11 lcg_randbelow_ok).
  simpl. discriminate.
Defined.

(** [deck.addToDiscard(card); deck.shuffle()]: the card is taken as it
    comes, whether or not the deck already holds it, and the shuffle puts
    it into the draw pile with all the others. *)
Theorem addToDiscard_then_shuffle
    {rng : Type} (randbelow : nat → rng → nat * rng)
    (c : Card) (d : Deck) (g : rng) :
  randbelow_ok randbelow →
  ∃ d' g', (zoom fst_l (Deck_addToDiscard c);; Deck_shuffle randbelow) (d, g)
             = (Ok tt, (d', g')) ∧
           deck d' ≡ₚ c :: deck d ++ discard d ∧
           discard d' = [].
Proof.
  intros Hrb. unfold mbind, M_bind, zoom, Deck_addToDiscard, list_append; simpl.
  set (d0 := mkDeck (deck d) (discard d ++ [c])).
  pose proof (Deck_shuffle_Ok randbelow d0 g Hrb) as Hok.
  pose proof (Deck_shuffle_state randbelow d0 g) as [Hp Hd].
  destruct (Deck_shuffle randbelow (d0, g)) as [r [d' g']]; simpl in *. subst r.
  exists d', g'. split; [done|]. split; [|done].
  rewrite Hp, (assoc (++)), <-Permutation_cons_append. done.
Qed.

Lemma addToDiscard_then_shuffle_witness :
  let c1 := mkCard (VStr "heart") (VStr "club") in
  let c2 := mkCard (VStr "club") (VStr "spade") in
  ∃ d' g', (zoom fst_l (Deck_addToDiscard c1);; Deck_shuffle lcg_randbelow)
             (mkDeck [c1; c2] [], 11) = (Ok tt, (d', g')) ∧
           deck d' ≡ₚ c1 :: [c1; c2] ++ [] ∧
           discard d' = [].
Proof.
  intros c1 c2.
  exact (addToDiscard_then_shuffle lcg_randbelow c1 (mkDeck [c1; c2] []) 11
           lcg_randbelow_ok).
Defined.
